(** * Active-link resolution of the blog's header link component

    The component's script is

      const { href, class: className, ...props } = Astro.props;
      const { pathname } = Astro.url;
      const isActive = href === pathname || href === pathname.replace(/\/$/, '');

    The development embeds the string primitives the script calls (strict
    equality and [String.prototype.replace] with the regular expression
    literal [/\/$/]) and the object pattern of its first line, and proves
    the properties of [isActive].

    Strings are sequences of characters compared position by position; a
    character stands for one code unit of the ECMAScript string. *)

From Stdlib Require Import Bool Ascii String List Arith Lia.
Import ListNotations.

Open Scope string_scope.
Open Scope bool_scope.

(** ** Regular expressions: the fragment the literal [/\/$/] is written in *)

Module RegExp.

(** A term of a pattern: a pattern character (here the escaped [\/]) or
    the assertion [$].  The literal carries no flag, so [$] is the
    end-of-input assertion (no [m] flag: a line terminator does not
    satisfy it). *)
Inductive Term : Type :=
| PatternCharacter (c : ascii)
| AssertEnd.

Definition Pattern : Type := list Term.

(** Matching the terms of a pattern in sequence at one position; [rest]
    is the input from that position on.  The result is the input that
    follows the match. *)
Fixpoint match_terms (p : Pattern) (rest : string) : option string :=
  match p with
  | [] => Some rest
  | PatternCharacter c :: p' =>
      match rest with
      | String c' rest' =>
          if Ascii.eqb c c' then match_terms p' rest' else None
      | EmptyString => None
      end
  | AssertEnd :: p' =>
      match rest with
      | EmptyString => match_terms p' rest
      | String _ _ => None
      end
  end.

(** The search of [RegExpBuiltinExec] without the [g] and [y] flags: the
    match is tried at index 0, then 1, ... up to and including the length
    of the input, and the first position that matches wins.  The result
    is the input before the match and the input after it. *)
Fixpoint exec (p : Pattern) (input : string) : option (string * string) :=
  match match_terms p input with
  | Some after => Some (EmptyString, after)
  | None =>
      match input with
      | EmptyString => None
      | String c rest =>
          match exec p rest with
          | Some (before, after) => Some (String c before, after)
          | None => None
          end
      end
  end.

(** [input.replace(p, replacement)] for a pattern without the [g] flag
    and a replacement text without [$] substitutions: the first match is
    replaced; an input without a match is returned as it is. *)
Definition replace (input : string) (p : Pattern) (replacement : string)
  : string :=
  match exec p input with
  | Some (before, after) => before ++ replacement ++ after
  | None => input
  end.

End RegExp.

(** ** The component *)

(** Strict equality [===] of two strings. *)
Definition strict_eq (x y : string) : bool := String.eqb x y.

(** The regular expression literal [/\/$/]. *)
Definition trailing_slash : RegExp.Pattern :=
  [RegExp.PatternCharacter "/"; RegExp.AssertEnd].

(** [href === pathname || href === pathname.replace(/\/$/, '')] *)
Definition isActive (href pathname : string) : bool :=
  strict_eq href pathname
  || strict_eq href (RegExp.replace pathname trailing_slash "").

(** The specification calls the resolution [resolveActive] and passes the
    current path first, the target href second. *)
Definition resolveActive (currentPath targetHref : string) : bool :=
  isActive targetHref currentPath.

(** ** Vocabulary of the specification *)

(** The string ends in the character [/]. *)
Fixpoint ends_with_slash (s : string) : bool :=
  match s with
  | EmptyString => false
  | String c EmptyString => Ascii.eqb c "/"
  | String _ rest => ends_with_slash rest
  end.

(** The string without its last character. *)
Fixpoint remove_last (s : string) : string :=
  match s with
  | EmptyString => EmptyString
  | String _ EmptyString => EmptyString
  | String c rest => String c (remove_last rest)
  end.

(** The string starts with the character [/]: a well-formed path. *)
Definition starts_with_slash (s : string) : bool :=
  match s with
  | String c _ => Ascii.eqb c "/"
  | EmptyString => false
  end.

(** The normalization in the words of the specification: one trailing [/]
    is removed when the string ends in [/] and is longer than one
    character. *)
Definition spec_stripTrailingSlash (s : string) : string :=
  if ends_with_slash s && Nat.ltb 1 (String.length s)
  then remove_last s
  else s.

(** The rule in the words of the specification. *)
Definition spec_resolveActive (currentPath targetHref : string) : bool :=
  String.eqb targetHref currentPath
  || String.eqb targetHref (spec_stripTrailingSlash currentPath).

(** The normalization the regular expression performs: one trailing [/] is
    removed whenever the string ends in [/]. *)
Definition strip_one_trailing_slash (s : string) : string :=
  if ends_with_slash s then remove_last s else s.

(** The string with [f] applied to each of its characters; a case
    folding is such a map. *)
Fixpoint map_chars (f : ascii -> ascii) (s : string) : string :=
  match s with
  | EmptyString => EmptyString
  | String c rest => String (f c) (map_chars f rest)
  end.

(** Case folding of the letters below code 256: [A] to [Z] and the
    accented capitals 192 to 222 (215, the multiplication sign, apart). *)
Definition to_lower_char (c : ascii) : ascii :=
  let n := nat_of_ascii c in
  if (Nat.leb 65 n && Nat.leb n 90)
     || (Nat.leb 192 n && Nat.leb n 222 && negb (Nat.eqb n 215))
  then ascii_of_nat (n + 32)
  else c.

(** White space below code 256: space, tab, line feed, vertical tab, form
    feed, carriage return and the no-break space. *)
Definition is_white_space (c : ascii) : bool :=
  let n := nat_of_ascii c in
  Nat.eqb n 32 || (Nat.leb 9 n && Nat.leb n 13) || Nat.eqb n 160.

(** Trimming, for any choice [white] of the white space characters. *)
Fixpoint trim_start (white : ascii -> bool) (s : string) : string :=
  match s with
  | EmptyString => EmptyString
  | String c rest => if white c then trim_start white rest else s
  end.

Fixpoint trim_end (white : ascii -> bool) (s : string) : string :=
  match s with
  | EmptyString => EmptyString
  | String c rest =>
      match trim_end white rest with
      | EmptyString => if white c then EmptyString else String c EmptyString
      | String c' rest' => String c (String c' rest')
      end
  end.

(** The string without its surrounding white space. *)
Definition trim (white : ascii -> bool) (s : string) : string :=
  trim_end white (trim_start white s).

(** The value of a hexadecimal digit. *)
Definition hex_digit (c : ascii) : option nat :=
  let n := nat_of_ascii c in
  if Nat.leb 48 n && Nat.leb n 57 then Some (n - 48)
  else if Nat.leb 65 n && Nat.leb n 70 then Some (n - 55)
  else if Nat.leb 97 n && Nat.leb n 102 then Some (n - 87)
  else None.

(** Percent-decoding: [%] followed by two hexadecimal digits stands for
    the character of that code; every other character stands for
    itself. *)
Fixpoint percent_decode (s : string) : string :=
  match s with
  | EmptyString => EmptyString
  | String c rest =>
      match rest with
      | String h1 (String h2 rest') =>
          match (if Ascii.eqb c "%" then hex_digit h1 else None),
                hex_digit h2 with
          | Some a, Some b =>
              String (ascii_of_nat (16 * a + b)) (percent_decode rest')
          | _, _ => String c (percent_decode rest)
          end
      | _ => String c (percent_decode rest)
      end
  end.

(** The replacement text has no [$], so it stands for itself in
    [String.prototype.replace]. *)
Fixpoint dollar_free (s : string) : bool :=
  match s with
  | EmptyString => true
  | String c rest => negb (Ascii.eqb c "$") && dollar_free rest
  end.

(** ** The object pattern of the script's first line *)

(** An object of attributes, as [Astro.props] arrives: its own properties
    in their order, each key once in a well-formed object. *)
Definition Attributes : Type := list (string * string).

(** [o[k]]; [None] stands for [undefined]. *)
Fixpoint get_property (k : string) (o : Attributes) : option string :=
  match o with
  | [] => None
  | (k', v) :: o' => if String.eqb k k' then Some v else get_property k o'
  end.

(** The rest element [...props] of an object pattern: the properties, in
    their order, whose key the pattern does not name. *)
Definition rest_properties (named : list string) (o : Attributes)
  : Attributes :=
  filter (fun kv => negb (existsb (String.eqb (fst kv)) named)) o.

(** The constants bound by
    [const { href, class: className, ...props } = Astro.props]. *)
Record Destructured : Type := mkDestructured {
  d_href : option string;
  d_className : option string;
  d_props : Attributes
}.

Definition destructure_props (o : Attributes) : Destructured :=
  {| d_href := get_property "href" o;
     d_className := get_property "class" o;
     d_props := rest_properties ["href"; "class"] o |}.

(** Strict equality [===] of a property value and a string: [undefined]
    is strictly equal to no string. *)
Definition strict_eq_value (x : option string) (y : string) : bool :=
  match x with
  | Some x' => strict_eq x' y
  | None => false
  end.

(** The script's [isActive] over the attributes object it destructures. *)
Definition isActive_of_props (o : Attributes) (pathname : string) : bool :=
  let d := destructure_props o in
  strict_eq_value (d_href d) pathname
  || strict_eq_value (d_href d)
       (RegExp.replace pathname trailing_slash "").

(** ** Strings *)

Lemma append_empty_r (s : string) : s ++ "" = s.
Proof.
  induction s as [|c s IH]; simpl; [reflexivity | now rewrite IH].
Qed.

Lemma length_append (s t : string) :
  String.length (s ++ t) = String.length s + String.length t.
Proof.
  induction s as [|c s IH]; simpl; [reflexivity | now rewrite IH].
Qed.

Lemma append_slash_not_empty (s : string) : s ++ "/" <> "".
Proof.
  destruct s; discriminate.
Qed.

Lemma ends_with_slash_append (s : string) : ends_with_slash (s ++ "/") = true.
Proof.
  induction s as [|c s IH]; [reflexivity|].
  simpl. destruct (s ++ "/") eqn:E; [|exact IH].
  now apply append_slash_not_empty in E.
Qed.

Lemma remove_last_append (s : string) : remove_last (s ++ "/") = s.
Proof.
  induction s as [|c s IH]; [reflexivity|].
  simpl. destruct (s ++ "/") eqn:E.
  - now apply append_slash_not_empty in E.
  - now rewrite IH.
Qed.

Lemma ends_with_slash_split (s : string) :
  ends_with_slash s = true -> s = remove_last s ++ "/".
Proof.
  induction s as [|c s IH]; [discriminate|].
  destruct s as [|c' s'].
  - simpl. intros H. apply Ascii.eqb_eq in H. now subst c.
  - intros H. change (ends_with_slash (String c' s') = true) in H.
    change (String c (String c' s')
            = String c (remove_last (String c' s') ++ "/")).
    now rewrite <- IH.
Qed.

(** ** The regular expression [/\/$/] *)

(** At one position the pattern matches exactly when the input from that
    position on is the single character [/]. *)
Lemma match_trailing_slash (rest : string) :
  RegExp.match_terms trailing_slash rest
  = if String.eqb rest "/" then Some "" else None.
Proof.
  unfold trailing_slash.
  destruct rest as [|c [|c' rest]];
    cbn [RegExp.match_terms String.eqb]; [reflexivity| |];
    rewrite (Ascii.eqb_sym "/" c); now destruct (Ascii.eqb c "/").
Qed.

(** The search at a position that is not the end of the input. *)
Lemma exec_String (p : RegExp.Pattern) (c : ascii) (rest : string) :
  RegExp.exec p (String c rest)
  = match RegExp.match_terms p (String c rest) with
    | Some after => Some ("", after)
    | None =>
        match RegExp.exec p rest with
        | Some (before, after) => Some (String c before, after)
        | None => None
        end
    end.
Proof. reflexivity. Qed.

(** An input that ends in [/] matches at its last index. *)
Lemma exec_trailing_slash_hit (s : string) :
  RegExp.exec trailing_slash (s ++ "/") = Some (s, "").
Proof.
  induction s as [|c s IH]; [reflexivity|].
  change ((String c s) ++ "/") with (String c (s ++ "/")).
  rewrite exec_String, match_trailing_slash, IH.
  destruct (String.eqb_spec (String c (s ++ "/")) "/") as [E|_];
    [|reflexivity].
  injection E as _ E. now apply append_slash_not_empty in E.
Qed.

(** An input that does not end in [/] has no match. *)
Lemma exec_trailing_slash_miss (s : string) :
  ends_with_slash s = false -> RegExp.exec trailing_slash s = None.
Proof.
  induction s as [|c s IH]; [reflexivity|].
  intros H. rewrite exec_String, match_trailing_slash.
  destruct (String.eqb_spec (String c s) "/") as [E|_].
  - rewrite E in H. discriminate.
  - destruct s as [|c' s'].
    + reflexivity.
    + change (ends_with_slash (String c' s') = false) in H.
      now rewrite (IH H).
Qed.

(** The replacement strips one trailing [/], whatever the length. *)
Lemma replace_trailing_slash (s : string) :
  RegExp.replace s trailing_slash "" = strip_one_trailing_slash s.
Proof.
  unfold RegExp.replace, strip_one_trailing_slash.
  destruct (ends_with_slash s) eqn:E.
  - rewrite (ends_with_slash_split s E) at 1.
    rewrite exec_trailing_slash_hit. simpl. apply append_empty_r.
  - now rewrite exec_trailing_slash_miss.
Qed.

Lemma replace_trailing_slash_append (s : string) :
  RegExp.replace (s ++ "/") trailing_slash "" = s.
Proof.
  rewrite replace_trailing_slash. unfold strip_one_trailing_slash.
  now rewrite ends_with_slash_append, remove_last_append.
Qed.

(** The replacement either leaves the input as it is or removes a final
    [/] from it. *)
Lemma replace_trailing_slash_cases (s : string) :
  RegExp.replace s trailing_slash "" = s
  \/ s = RegExp.replace s trailing_slash "" ++ "/".
Proof.
  rewrite replace_trailing_slash. unfold strip_one_trailing_slash.
  destruct (ends_with_slash s) eqn:E.
  - right. now apply ends_with_slash_split.
  - now left.
Qed.

(** ** The resolution *)

(** The link is active exactly when the target is the current path, or
    the current path is the target followed by one [/]. *)
Lemma resolveActive_true_iff (currentPath targetHref : string) :
  resolveActive currentPath targetHref = true
  <-> targetHref = currentPath \/ currentPath = targetHref ++ "/".
Proof.
  unfold resolveActive, isActive, strict_eq.
  rewrite orb_true_iff, !String.eqb_eq. split.
  - intros [H|H]; [now left|].
    destruct (replace_trailing_slash_cases currentPath) as [E|E].
    + left. now rewrite H, E.
    + right. now rewrite H.
  - intros [H|H]; [now left|].
    right. subst currentPath. now rewrite replace_trailing_slash_append.
Qed.

Lemma resolveActive_false_iff (currentPath targetHref : string) :
  resolveActive currentPath targetHref = false
  <-> targetHref <> currentPath /\ currentPath <> targetHref ++ "/".
Proof.
  rewrite <- not_true_iff_false, resolveActive_true_iff. tauto.
Qed.

Lemma append_assoc (s t u : string) : (s ++ t) ++ u = s ++ (t ++ u).
Proof.
  induction s as [|c s IH]; simpl; [reflexivity | now rewrite IH].
Qed.

Lemma append_cancel_l (s t u : string) : s ++ t = s ++ u -> t = u.
Proof.
  induction s as [|c s IH]; simpl; intros E; [exact E|].
  injection E as E. now apply IH.
Qed.

(** ** Normalizations the comparison does not perform *)

(** A normalization that tells a string from the same string followed by
    [/] cannot identify a target with a current path that activates it,
    unless the two are equal. *)
Lemma inactive_under_normalization (normalize : string -> string) :
  (forall s, normalize (s ++ "/") <> normalize s) ->
  forall currentPath targetHref : string,
    targetHref <> currentPath ->
    normalize targetHref = normalize currentPath ->
    resolveActive currentPath targetHref = false.
Proof.
  intros Hn currentPath targetHref Hne E.
  apply resolveActive_false_iff. split; [exact Hne|].
  intros ->. now apply (Hn targetHref).
Qed.

Lemma length_map_chars (f : ascii -> ascii) (s : string) :
  String.length (map_chars f s) = String.length s.
Proof.
  induction s as [|c s IH]; simpl; [reflexivity | now rewrite IH].
Qed.

Lemma map_chars_append_slash (f : ascii -> ascii) (s : string) :
  map_chars f (s ++ "/") <> map_chars f s.
Proof.
  intros E. apply (f_equal String.length) in E.
  rewrite !length_map_chars, length_append in E. simpl in E. lia.
Qed.

Section Trimming.

Variable white : ascii -> bool.
Hypothesis slash_not_white : white "/" = false.

Lemma trim_start_append_slash (s : string) :
  trim_start white (s ++ "/") = trim_start white s ++ "/".
Proof.
  induction s as [|c s IH].
  - simpl. now rewrite slash_not_white.
  - change (String c s ++ "/") with (String c (s ++ "/")).
    cbn [trim_start]. now destruct (white c).
Qed.

Lemma trim_end_append_slash (s : string) :
  trim_end white (s ++ "/") = s ++ "/".
Proof.
  induction s as [|c s IH].
  - simpl. now rewrite slash_not_white.
  - change (String c s ++ "/") with (String c (s ++ "/")).
    cbn [trim_end]. rewrite IH.
    destruct (s ++ "/") eqn:E; [|reflexivity].
    now apply append_slash_not_empty in E.
Qed.

Lemma length_trim_end (s : string) :
  String.length (trim_end white s) <= String.length s.
Proof.
  induction s as [|c s IH]; [apply Nat.le_refl|].
  cbn [trim_end]. destruct (trim_end white s) as [|c' r].
  - destruct (white c); simpl; lia.
  - simpl in *. lia.
Qed.

(** Trimming cannot identify a string with the same string followed by
    [/]. *)
Lemma trim_append_slash (s : string) :
  trim white (s ++ "/") <> trim white s.
Proof.
  unfold trim. rewrite trim_start_append_slash, trim_end_append_slash.
  intros E. pose proof (length_trim_end (trim_start white s)) as L.
  rewrite <- E, length_append in L. simpl in L. lia.
Qed.

End Trimming.

Lemma percent_decode_escape (c h1 h2 : ascii) (rest : string) :
  percent_decode (String c (String h1 (String h2 rest)))
  = match (if Ascii.eqb c "%" then hex_digit h1 else None),
          hex_digit h2 with
    | Some a, Some b =>
        String (ascii_of_nat (16 * a + b)) (percent_decode rest)
    | _, _ => String c (percent_decode (String h1 (String h2 rest)))
    end.
Proof. reflexivity. Qed.

(** A final [/] completes no escape: it is decoded to itself. *)
Lemma percent_decode_append_slash (s : string) :
  percent_decode (s ++ "/") = percent_decode s ++ "/".
Proof.
  remember (String.length s) as n eqn:Hn.
  assert (Hle : String.length s <= n) by lia. clear Hn.
  revert s Hle. induction n as [|n IH]; intros s Hle.
  - destruct s; [reflexivity | simpl in Hle; lia].
  - destruct s as [|c [|h1 [|h2 r]]].
    + reflexivity.
    + reflexivity.
    + change (String c (String h1 "") ++ "/")
        with (String c (String h1 (String "/" ""))).
      rewrite percent_decode_escape.
      change (hex_digit "/") with (@None nat).
      change (percent_decode (String c (String h1 "")))
        with (String c (percent_decode (String h1 ""))).
      change (String h1 (String "/" "")) with (String h1 "" ++ "/").
      rewrite (IH (String h1 "")) by (simpl in *; lia).
      now destruct (if Ascii.eqb c "%" then hex_digit h1 else None).
    + change (String c (String h1 (String h2 r)) ++ "/")
        with (String c (String h1 (String h2 (r ++ "/")))).
      rewrite !percent_decode_escape.
      change (String h1 (String h2 (r ++ "/")))
        with (String h1 (String h2 r) ++ "/").
      rewrite (IH r) by (simpl in *; lia).
      rewrite (IH (String h1 (String h2 r))) by (simpl in *; lia).
      now destruct (if Ascii.eqb c "%" then hex_digit h1 else None),
                   (hex_digit h2).
Qed.

Lemma percent_decode_append_slash_neq (s : string) :
  percent_decode (s ++ "/") <> percent_decode s.
Proof.
  rewrite percent_decode_append_slash. intros E.
  apply (f_equal String.length) in E. rewrite length_append in E.
  simpl in E. lia.
Qed.

(** * The claims *)

(** C1 (as stated, refuted): at the root path [/] and the empty target the
    script answers [true], while the rule with a normalization that leaves
    a one-character string alone answers [false]. *)
Lemma C1_root_empty_target_differs :
  starts_with_slash "/" = true
  /\ resolveActive "/" "" = true
  /\ spec_resolveActive "/" "" = false.
Proof. repeat split. Qed.

(** C1 (amended): for every current path and every target href the
    resolution is [targetHref == currentPath] or [targetHref ==
    strip currentPath], where [strip], the replacement by [/\/$/], removes
    exactly one trailing [/] whenever the string ends in [/] and leaves
    every other string unchanged; there is no guard on the length, so the
    root path [/] is stripped to the empty string. *)
Theorem C1_rule_with_unguarded_strip (currentPath targetHref : string) :
  resolveActive currentPath targetHref
  = String.eqb targetHref currentPath
    || String.eqb targetHref (RegExp.replace currentPath trailing_slash "")
  /\ RegExp.replace currentPath trailing_slash ""
     = (if ends_with_slash currentPath
        then remove_last currentPath
        else currentPath)
  /\ RegExp.replace (currentPath ++ "/") trailing_slash "" = currentPath
  /\ RegExp.replace "/" trailing_slash "" = "".
Proof.
  split; [reflexivity|]. split; [apply replace_trailing_slash|].
  split; [apply replace_trailing_slash_append | reflexivity].
Qed.

(** C2 (as stated, refuted): the three parts of the claim cannot hold
    together, since the replacement reduces [/] to the empty string and the
    empty target is active at the root. *)
Lemma C2_root_is_stripped :
  ~ (resolveActive "/" "/" = true
     /\ RegExp.replace "/" trailing_slash "" <> ""
     /\ resolveActive "/" "" = false).
Proof.
  intros (_ & _ & H). vm_compute in H. discriminate.
Qed.

(** C2 (amended): [resolveActive "/" "/"] is [true]; the normalization
    reduces the root path [/] to the empty string; so at the root the empty
    target href is active, and the targets active at the root are exactly
    [/] and the empty string. *)
Theorem C2_root_path (targetHref : string) :
  resolveActive "/" "/" = true
  /\ RegExp.replace "/" trailing_slash "" = ""
  /\ resolveActive "/" "" = true
  /\ resolveActive "/" targetHref
     = String.eqb targetHref "/" || String.eqb targetHref "".
Proof. repeat split. Qed.

(** C3 (as stated, refuted): the empty target href, paired with the valid
    current path [/], is active. *)
Lemma C3_empty_target_active_at_root :
  starts_with_slash "/" = true
  /\ starts_with_slash "" = false
  /\ resolveActive "/" "" <> false.
Proof. repeat split. discriminate. Qed.

(** C3 (amended): the resolution returns a boolean for every pair of
    strings, and a target href that is not a well-formed path (it does not
    start with [/]; the empty string is one), paired with a valid current
    path, is inactive except for the empty target at the root path [/],
    which is active. *)
Theorem C3_malformed_target (currentPath targetHref : string) :
  starts_with_slash currentPath = true ->
  starts_with_slash targetHref = false ->
  (exists b : bool, resolveActive currentPath targetHref = b)
  /\ resolveActive currentPath targetHref
     = String.eqb targetHref "" && String.eqb currentPath "/".
Proof.
  intros Hc Ht. split; [now eexists|].
  apply eq_true_iff_eq.
  rewrite resolveActive_true_iff, andb_true_iff, !String.eqb_eq.
  split.
  - intros [E|E].
    + rewrite E, Hc in Ht. discriminate.
    + destruct targetHref as [|c r]; [now split|].
      rewrite E in Hc. simpl in Hc, Ht. rewrite Hc in Ht. discriminate.
  - intros [-> ->]. now right.
Qed.

Lemma C3_malformed_target_witness :
  starts_with_slash "/blog/" = true
  /\ starts_with_slash "blog" = false
  /\ resolveActive "/blog/" "blog" = false.
Proof.
  split; [reflexivity|]. split; [reflexivity|].
  apply (C3_malformed_target "/blog/" "blog"); reflexivity.
Defined.

(** C4: for every string [p] longer than one character, the current path
    [p/] activates the target [p], and the current path [p] does not
    activate the target [p/]: only the current path is normalized. *)
Theorem C4_asymmetric_normalization (p : string) :
  1 < String.length p ->
  resolveActive (p ++ "/") p = true
  /\ resolveActive p (p ++ "/") = false.
Proof.
  intros _. split.
  - apply resolveActive_true_iff. now right.
  - apply resolveActive_false_iff. split; intros E;
      apply (f_equal String.length) in E;
      rewrite ?length_append in E; simpl in E; lia.
Qed.

Lemma C4_asymmetric_normalization_witness :
  1 < String.length "/blog"
  /\ resolveActive "/blog/" "/blog" = true
  /\ resolveActive "/blog" "/blog/" = false.
Proof.
  split; [simpl; lia|].
  apply (C4_asymmetric_normalization "/blog"). simpl. lia.
Defined.

(** C5: the match is exact up to one trailing [/] of the current path and
    never a prefix match: no target [t] is active at a current path that
    extends [t] by anything but a single [/]; in particular not at one that
    extends [t] by [/] and a non-empty segment.  So [/blog] is active at
    [/blog/] and not at [/blog/post-1], [/] is not active at [/blog], and
    [/blog/] is not active at [/blog/post-1]. *)
Theorem C5_no_prefix_match (t extension : string) :
  extension <> "" ->
  extension <> "/" ->
  resolveActive (t ++ extension) t = false
  /\ (forall segment : string,
        segment <> "" -> resolveActive (t ++ "/" ++ segment) t = false)
  /\ resolveActive "/blog/" "/blog" = true
  /\ resolveActive "/blog/post-1" "/blog" = false
  /\ resolveActive "/blog" "/blog/post-1" = false
  /\ resolveActive "/blog" "/" = false
  /\ resolveActive "/blog/post-1" "/blog/" = false.
Proof.
  assert (General : forall e : string,
             e <> "" -> e <> "/" -> resolveActive (t ++ e) t = false).
  { intros e He Hs. apply resolveActive_false_iff. split; intros E.
    - apply (f_equal String.length) in E. rewrite length_append in E.
      destruct e; [now apply He | simpl in E; lia].
    - now apply append_cancel_l in E. }
  intros He Hs. split; [now apply General|]. split; [|now repeat split].
  intros segment Hseg. apply General; [discriminate|].
  intros E. injection E as E. now apply Hseg.
Qed.

Lemma C5_no_prefix_match_witness :
  "/my-post" <> ""
  /\ "/my-post" <> "/"
  /\ resolveActive "/blog/my-post" "/blog" = false
  /\ resolveActive "/blog" "/" = false.
Proof.
  split; [discriminate|]. split; [discriminate|]. split.
  - apply (C5_no_prefix_match "/blog" "/my-post"); discriminate.
  - apply (C5_no_prefix_match "/" "blog"); discriminate.
Defined.

(** C6: a target href equal to the current path is active, for every
    string. *)
Theorem C6_exact_match_reflexive (p : string) : resolveActive p p = true.
Proof.
  apply resolveActive_true_iff. now left.
Qed.

(** C7: the four scenarios of the specification: [/] at [/] is active,
    [/blog] at [/blog/] is active, [/blog] at [/blog/my-post] is not, and
    [/about] at [/about] is active. *)
Theorem C7_scenarios :
  resolveActive "/" "/" = true
  /\ resolveActive "/blog/" "/blog" = true
  /\ resolveActive "/blog/my-post" "/blog" = false
  /\ resolveActive "/about" "/about" = true.
Proof. repeat split. Qed.

(** C9: one trailing [/] is removed and no more: a current path ending in
    [//] is compared with one [/] left, so [/blog] is not active at
    [/blog//] while [/blog/] is. *)
Theorem C9_one_slash_removed (s : string) :
  RegExp.replace (s ++ "//") trailing_slash "" = s ++ "/"
  /\ resolveActive "/blog//" "/blog" = false
  /\ resolveActive "/blog//" "/blog/" = true.
Proof.
  split; [|now split].
  change "//" with ("/" ++ "/"). rewrite <- append_assoc.
  apply replace_trailing_slash_append.
Qed.

(** C10: the comparison is exact string equality, with no case folding,
    no trimming and no percent-decoding: a target href and a current path
    that differ, but become equal under a character-wise folding (whatever
    the folding), under trimming (whatever the white space characters, [/]
    not being one) or under percent-decoding, are inactive.  So [/blog] is
    inactive at [/Blog] and at [/blog] followed by a space, and [/a b] and
    [/a%20b] are inactive at one another. *)
Theorem C10_exact_comparison
        (fold : ascii -> ascii) (white : ascii -> bool)
        (currentPath targetHref : string) :
  white "/"%char = false ->
  targetHref <> currentPath ->
  map_chars fold targetHref = map_chars fold currentPath
  \/ trim white targetHref = trim white currentPath
  \/ percent_decode targetHref = percent_decode currentPath ->
  resolveActive currentPath targetHref = false
  /\ resolveActive "/Blog" "/blog" = false
  /\ resolveActive "/blog " "/blog" = false
  /\ resolveActive "/a b" "/a%20b" = false
  /\ resolveActive "/a%20b" "/a b" = false.
Proof.
  intros Hw Hne H. split; [|now repeat split].
  destruct H as [H|[H|H]].
  - apply (inactive_under_normalization (map_chars fold));
      [apply map_chars_append_slash | exact Hne | exact H].
  - apply (inactive_under_normalization (trim white));
      [now apply trim_append_slash | exact Hne | exact H].
  - apply (inactive_under_normalization percent_decode);
      [apply percent_decode_append_slash_neq | exact Hne | exact H].
Qed.

Lemma C10_exact_comparison_witness :
  let E_acute := String (ascii_of_nat 201) "" in
  let e_acute := String (ascii_of_nat 233) "" in
  let nbsp := String (ascii_of_nat 160) "" in
  is_white_space "/" = false
  /\ (map_chars to_lower_char ("/" ++ e_acute)
      = map_chars to_lower_char ("/" ++ E_acute)
      /\ resolveActive ("/" ++ E_acute) ("/" ++ e_acute) = false)
  /\ (trim is_white_space ("/blog" ++ nbsp) = trim is_white_space "/blog"
      /\ resolveActive "/blog" ("/blog" ++ nbsp) = false)
  /\ (percent_decode "/a b" = percent_decode "/a%20b"
      /\ resolveActive "/a%20b" "/a b" = false).
Proof.
  intros E_acute e_acute nbsp.
  split; [reflexivity|]. split; [|split]; (split; [reflexivity|]).
  - apply (C10_exact_comparison to_lower_char is_white_space
             ("/" ++ E_acute) ("/" ++ e_acute));
      [reflexivity | discriminate | left; reflexivity].
  - apply (C10_exact_comparison to_lower_char is_white_space
             "/blog" ("/blog" ++ nbsp));
      [reflexivity | discriminate | right; left; reflexivity].
  - apply (C10_exact_comparison to_lower_char is_white_space
             "/a%20b" "/a b");
      [reflexivity | discriminate | right; right; reflexivity].
Defined.

(** * Further properties of the script *)

Lemma append_slash_injective (s t : string) : s ++ "/" = t ++ "/" -> s = t.
Proof.
  intros E. apply (f_equal remove_last) in E.
  now rewrite !remove_last_append in E.
Qed.

Lemma ends_with_slash_false_append (s t : string) :
  ends_with_slash s = false -> s <> t ++ "/".
Proof.
  intros H E. rewrite E, ends_with_slash_append in H. discriminate.
Qed.

(** At one position a pattern consumes a prefix of the input. *)
Lemma match_terms_suffix (p : RegExp.Pattern) :
  forall rest after : string,
    RegExp.match_terms p rest = Some after ->
    exists matched, rest = matched ++ after.
Proof.
  induction p as [|t p IH]; intros rest after H.
  - injection H as <-. now exists "".
  - destruct t as [c|]; destruct rest as [|c' rest']; cbn in H;
      try discriminate.
    + destruct (Ascii.eqb c c'); [|discriminate].
      destruct (IH _ _ H) as [m ->]. now exists (String c' m).
    + apply (IH "" after H).
Qed.

(** X1: the link is active exactly when its href is the page's pathname,
    or the pathname is the href followed by one [/]. *)
Theorem X1_isActive_characterisation (href pathname : string) :
  isActive href pathname = true
  <-> href = pathname \/ pathname = href ++ "/".
Proof.
  apply (resolveActive_true_iff pathname href).
Qed.

(** X2: two links that are active on the same page have the same href, up
    to one trailing [/] on one of them. *)
Theorem X2_active_links_agree (href1 href2 pathname : string) :
  isActive href1 pathname = true ->
  isActive href2 pathname = true ->
  href1 = href2 \/ href1 = href2 ++ "/" \/ href2 = href1 ++ "/".
Proof.
  intros H1 H2.
  apply (resolveActive_true_iff pathname href1) in H1.
  apply (resolveActive_true_iff pathname href2) in H2.
  destruct H1 as [E1|E1], H2 as [E2|E2]; subst.
  - now left.
  - right. now left.
  - right. now right.
  - left. now apply append_slash_injective.
Qed.

Lemma X2_active_links_agree_witness :
  isActive "/blog" "/blog/" = true
  /\ isActive "/blog/" "/blog/" = true
  /\ ("/blog" = "/blog/" \/ "/blog" = "/blog/" ++ "/"
      \/ "/blog/" = "/blog" ++ "/").
Proof.
  split; [reflexivity|]. split; [reflexivity|].
  apply (X2_active_links_agree "/blog" "/blog/" "/blog/"); reflexivity.
Defined.

(** X3: when neither the href nor the pathname ends in [/], the page
    served with a trailing [/] activates the link exactly when the page
    served without it does. *)
Theorem X3_trailing_slash_insensitive (href pathname : string) :
  ends_with_slash href = false ->
  ends_with_slash pathname = false ->
  isActive href (pathname ++ "/") = isActive href pathname.
Proof.
  intros Hh Hp. apply eq_true_iff_eq.
  rewrite (resolveActive_true_iff (pathname ++ "/") href).
  rewrite (resolveActive_true_iff pathname href).
  split; intros [E|E].
  - now apply ends_with_slash_false_append in E.
  - left. symmetry. now apply append_slash_injective.
  - right. now rewrite E.
  - now apply ends_with_slash_false_append in E.
Qed.

Lemma X3_trailing_slash_insensitive_witness :
  ends_with_slash "/blog" = false
  /\ isActive "/blog" ("/blog" ++ "/") = isActive "/blog" "/blog".
Proof.
  split; [reflexivity|].
  apply (X3_trailing_slash_insensitive "/blog" "/blog"); reflexivity.
Defined.

Lemma get_rest_properties (named : list string) (o : Attributes)
      (k : string) :
  get_property k (rest_properties named o)
  = if existsb (String.eqb k) named then None else get_property k o.
Proof.
  induction o as [|[k' v] o IH]; simpl.
  - now destruct (existsb (String.eqb k) named).
  - destruct (existsb (String.eqb k') named) eqn:E; simpl.
    + rewrite IH. destruct (String.eqb_spec k k') as [->|_];
        [now rewrite E | reflexivity].
    + rewrite IH. destruct (String.eqb_spec k k') as [->|_];
        [now rewrite E | reflexivity].
Qed.

(** X4: the rest element [props] of the object pattern has neither an
    [href] nor a [class] property, and every other property of
    [Astro.props] is read from it with the value it has in [Astro.props]:
    spreading it over the anchor cannot replace the anchor's [href] or
    [class]. *)
Theorem X4_rest_excludes_named (o : Attributes) (k : string) :
  get_property k (d_props (destructure_props o))
  = if String.eqb k "href" || String.eqb k "class"
    then None
    else get_property k o.
Proof.
  unfold destructure_props. cbn [d_props].
  rewrite get_rest_properties. cbn [existsb]. now rewrite orb_false_r.
Qed.

(** X5: over the attributes object, the link is active exactly when the
    object has an [href] property whose value is the pathname, or the
    pathname without its final [/]; a link without [href] is active on no
    page. *)
Theorem X5_isActive_of_props (o : Attributes) (pathname : string) :
  isActive_of_props o pathname = true
  <-> exists h : string,
        get_property "href" o = Some h
        /\ (h = pathname \/ pathname = h ++ "/").
Proof.
  unfold isActive_of_props, destructure_props. cbn [d_href].
  destruct (get_property "href" o) as [h|]; cbn [strict_eq_value].
  - change (strict_eq h pathname
            || strict_eq h (RegExp.replace pathname trailing_slash ""))
      with (resolveActive pathname h).
    rewrite resolveActive_true_iff. split.
    + intros H. now exists h.
    + intros (h' & E & H). now injection E as ->.
  - split; [discriminate|]. intros (h & E & _). discriminate.
Qed.

(** X6: a replacement by a text without [$] rewrites the matched part of
    the input and nothing else: either no position matches and the input
    is returned as it is, or the input splits into the text before the
    match, the matched text and the text after it, and the result is the
    first, the replacement and the last. *)
Theorem X6_replace_rewrites_match
        (p : RegExp.Pattern) (input replacement : string) :
  dollar_free replacement = true ->
  match RegExp.exec p input with
  | None => RegExp.replace input p replacement = input
  | Some (before, after) =>
      exists matched : string,
        input = before ++ matched ++ after
        /\ RegExp.match_terms p (matched ++ after) = Some after
        /\ RegExp.replace input p replacement
           = before ++ replacement ++ after
  end.
Proof.
  intros _. unfold RegExp.replace.
  destruct (RegExp.exec p input) as [[before after]|] eqn:E;
    [|reflexivity].
  revert before after E.
  induction input as [|c rest IH]; intros before after E.
  - cbn in E. destruct (RegExp.match_terms p "") as [a|] eqn:M;
      [|discriminate].
    injection E as <- <-. destruct (match_terms_suffix _ _ _ M) as [m Hm].
    exists m. cbn. now rewrite <- Hm.
  - rewrite exec_String in E.
    destruct (RegExp.match_terms p (String c rest)) as [a|] eqn:M.
    + injection E as <- <-.
      destruct (match_terms_suffix _ _ _ M) as [m Hm].
      exists m. cbn. now rewrite <- Hm.
    + destruct (RegExp.exec p rest) as [[b a]|]; [|discriminate].
      injection E as <- <-.
      destruct (IH b a eq_refl) as (m & Hin & Hm & _).
      exists m. cbn. now rewrite <- Hin.
Qed.

Lemma X6_replace_rewrites_match_witness :
  dollar_free "-" = true
  /\ exists matched : string,
       "/a/" = "/a" ++ matched ++ ""
       /\ RegExp.match_terms trailing_slash (matched ++ "") = Some ""
       /\ RegExp.replace "/a/" trailing_slash "-" = "/a" ++ "-" ++ "".
Proof.
  split; [reflexivity|].
  exact (X6_replace_rewrites_match trailing_slash "/a/" "-" eq_refl).
Defined.

(** X7: the search returns the first match: the pattern matches at no
    position before the one the search reports. *)
Theorem X7_exec_leftmost (p : RegExp.Pattern) :
  forall input before after skipped rest : string,
    RegExp.exec p input = Some (before, after) ->
    input = skipped ++ rest ->
    String.length skipped < String.length before ->
    RegExp.match_terms p rest = None.
Proof.
  induction input as [|c input IH];
    intros before after skipped rest E Hsplit Hlen.
  - cbn in E. destruct (RegExp.match_terms p ""); [|discriminate].
    injection E as <- _. simpl in Hlen. lia.
  - rewrite exec_String in E.
    destruct (RegExp.match_terms p (String c input)) as [a|] eqn:M.
    + injection E as <- _. simpl in Hlen. lia.
    + destruct (RegExp.exec p input) as [[b a]|] eqn:E'; [|discriminate].
      injection E as <- <-. destruct skipped as [|c' skipped].
      * simpl in Hsplit. now rewrite <- Hsplit.
      * simpl in Hsplit, Hlen. injection Hsplit as _ Hsplit.
        apply (IH b a skipped rest eq_refl Hsplit). lia.
Qed.

Lemma X7_exec_leftmost_witness :
  RegExp.exec trailing_slash "/a/" = Some ("/a", "")
  /\ "/a/" = "" ++ "/a/"
  /\ String.length "" < String.length "/a"
  /\ RegExp.match_terms trailing_slash "/a/" = None.
Proof.
  split; [reflexivity|]. split; [reflexivity|]. split; [simpl; lia|].
  apply (X7_exec_leftmost trailing_slash "/a/" "/a" "" "" "/a/");
    [reflexivity | reflexivity | simpl; lia].
Defined.

(** X8: the search fails exactly when the pattern matches at no position
    of the input, the end of the input included. *)
Theorem X8_exec_none_iff (p : RegExp.Pattern) (input : string) :
  RegExp.exec p input = None
  <-> forall skipped rest : string,
        input = skipped ++ rest -> RegExp.match_terms p rest = None.
Proof.
  split.
  - revert p. induction input as [|c input IH]; intros p E skipped rest H.
    + destruct skipped; [|discriminate]. simpl in H. subst rest.
      cbn in E. now destruct (RegExp.match_terms p "").
    + rewrite exec_String in E.
      destruct (RegExp.match_terms p (String c input)) eqn:M;
        [discriminate|].
      destruct skipped as [|c' skipped].
      * simpl in H. now rewrite <- H.
      * simpl in H. injection H as _ H.
        apply (IH p) with (skipped := skipped); [|exact H].
        now destruct (RegExp.exec p input) as [[b a]|].
  - induction input as [|c input IH]; intros H.
    + cbn. now rewrite (H "" "" eq_refl).
    + rewrite exec_String, (H "" (String c input) eq_refl), IH;
        [reflexivity|].
      intros skipped rest E. apply (H (String c skipped) rest).
      simpl. now rewrite E.
Qed.
